(** * Graphite front-end widgets: layout dispatcher and text field inputs

    A shallow embedding of three Vue single-file components of the editor's
    front-end,

      - [frontend/src/components/widgets/WidgetLayout.vue],
      - [frontend/src/components/widgets/inputs/FieldInput.vue],
      - the text-input specialization built on top of [FieldInput],

    together with the properties their specification states about them.

    Conventions.  A component's props and data are records; a method that
    assigns to [this] is a function from instance to instance; [$emit] is
    the list of events a handler hands to the parent; a JavaScript [throw]
    is the [Throw] completion; the DOM element behind [$refs.input] is a
    record inside the instance, so that the calls a method makes on it are
    visible in the state. *)

From Stdlib Require Import Ascii String.
From stdpp Require Import base list strings.

Local Open Scope string_scope.

(** ** JavaScript completions *)

(** A call either returns a value or throws [new Error(message)]. *)
Inductive Completion (A : Type) : Type :=
  | Return (a : A)
  | Throw (message : string).

Arguments Return {A} a.
Arguments Throw {A} message.

#[global] Instance completion_ret : MRet Completion := fun A a => Return a.

#[global] Instance completion_bind : MBind Completion := fun A B k c =>
  match c with
  | Return a => k a
  | Throw message => Throw message
  end.

Definition returns {A : Type} (c : Completion A) : Prop :=
  exists a, c = Return a.

(** ** JavaScript strings *)

(** [s.substring(n)]: [s] without its first [n] characters. *)
Fixpoint substring_from (n : nat) (s : string) : string :=
  match n, s with
  | 0, _ => s
  | S _, EmptyString => EmptyString
  | S n, String _ s => substring_from n s
  end.

(** The value sanitization of a text input: line feeds and carriage
    returns are removed from a text assigned to it. *)
Definition is_line_break (c : ascii) : bool :=
  Ascii.eqb c "010"%char || Ascii.eqb c "013"%char.

Fixpoint strip_line_breaks (s : string) : string :=
  match s with
  | EmptyString => EmptyString
  | String c s =>
      if is_line_break c then strip_line_breaks s
      else String c (strip_line_breaks s)
  end.

Fixpoint has_line_break (s : string) : bool :=
  match s with
  | EmptyString => false
  | String c s => is_line_break c || has_line_break s
  end.

(** Truthiness of an optional string prop: [undefined] and the empty
    string are falsy, every other string is truthy. *)
Definition truthy (s : option string) : bool :=
  match s with
  | Some (String _ _) => true
  | Some EmptyString => false
  | None => false
  end.

(** * WidgetLayout.vue *)

Module WidgetLayout.

(** The two components registered under [components:]. *)
Inductive Component : Type :=
| WidgetRow
| WidgetSection.

Section Dispatcher.

(** [LayoutRow], [WidgetLayout] and the two type guards are imported
    from "@/dispatcher/js-messages"; the component only relies on the
    guards being boolean tests on a row and on a layout having the two
    fields the template reads.  They are parameters here. *)
Context {LayoutRow LayoutTarget : Type}.
Variables isWidgetRow isWidgetSection : LayoutRow -> bool.

(** The [layout] prop: what the template reads of a [WidgetLayout]. *)
Record WidgetLayout : Type := {
  layout : list LayoutRow;
  layout_target : LayoutTarget
}.

(** [layoutRowType(layoutRow)]: two guarded returns, then the throw. *)
Definition layoutRowType (layoutRow : LayoutRow) : Completion Component :=
  if isWidgetRow layoutRow then Return WidgetRow
  else if isWidgetSection layoutRow then Return WidgetSection
  else Throw "Layout row type does not exist".

(** One [<component :is :widgetData :layoutTarget>] of the template,
    keyed by the loop index. *)
Record VNode : Type := {
  key : nat;
  is_ : Component;
  widgetData : LayoutRow;
  layoutTarget : LayoutTarget
}.

(** The [v-for] over [layout.layout], evaluated left to right from
    [index]; the first throwing [layoutRowType] call aborts the render. *)
Fixpoint renderList (target : LayoutTarget) (index : nat)
    (rows : list LayoutRow) : Completion (list VNode) :=
  match rows with
  | [] => Return []
  | layoutRow :: rest =>
      c ← layoutRowType layoutRow;
      vnodes ← renderList target (S index) rest;
      mret ({| key := index; is_ := c; widgetData := layoutRow;
                 layoutTarget := target |} :: vnodes)
  end.

(** The children of [<div class="widget-layout">]. *)
Definition render (props : WidgetLayout) : Completion (list VNode) :=
  renderList (layout_target props) 0 (layout props).

(** A row the dispatcher knows: it passes one of the two guards. *)
Definition known (layoutRow : LayoutRow) : bool :=
  isWidgetRow layoutRow || isWidgetSection layoutRow.

End Dispatcher.

Arguments WidgetLayout : clear implicits.
Arguments VNode : clear implicits.

End WidgetLayout.

(** * FieldInput.vue: the base field wrapper *)

Module FieldInput.

(** [props:] of the component. *)
Record Props : Type := {
  value : string;
  label : option string;
  spellcheck : bool;
  disabled : bool
}.

(** What the component hands to its parent with [$emit]. *)
Inductive Emit : Type :=
| update_value (value : string)
| textFocused
| textChanged
| cancelTextChange.

Definition emit_name (e : Emit) : string :=
  match e with
  | update_value _ => "update:value"
  | textFocused => "textFocused"
  | textChanged => "textChanged"
  | cancelTextChange => "cancelTextChange"
  end.

(** The [emits:] declaration. *)
Definition emits : list string :=
  ["update:value"; "textFocused"; "textChanged"; "cancelTextChange"].

(** The key of a [keydown] event, as the [.enter] and [.esc] modifiers of
    the template classify it. *)
Inductive Key : Type :=
| KeyEnter
| KeyEsc
| KeyOther (key : string).

(** An interaction with the [<input>] element: the DOM events the template
    listens to.  [input] and the two composition events are the ones
    [v-model] listens to; [input] and [compositionend] carry the text the
    element holds when they fire; [unbound] is any other event type. *)
Inductive InputEvent : Type :=
| focus
| blur
| change
| keydown (k : Key)
| input (elementValue : string)
| unbound (type : string)
| compositionstart
| compositionend (elementValue : string).

(** Computed [inputValue]: the getter reads the prop, the setter only
    emits. *)
Definition inputValue_get (this : Props) : string := value this.

Definition inputValue_set (value : string) : list Emit :=
  [update_value value].

(** The listeners on [<input>]: what each interaction emits while the
    element is not inside an input-method composition. *)
Definition on (e : InputEvent) : list Emit :=
  match e with
  | focus => [textFocused]
  | blur => [textChanged]
  | change => [textChanged]
  | keydown KeyEnter => [textChanged]
  | keydown KeyEsc => [cancelTextChange]
  | keydown (KeyOther _) => []
  | input elementValue => inputValue_set elementValue
  | unbound _ => []
  | compositionstart => []
  | compositionend _ => []
  end.

(** The listeners with the [composing] flag that [v-model] keeps on the
    element: [compositionstart] sets it; while it is set, [input] events
    are ignored; [compositionend] clears it and passes the element's text
    on as a late [input].  The result is the flag written, if any, and
    what is emitted.  The five listeners of lines 12-16 do not look at the
    flag.  ([change] is a change outside a composition: browsers end an
    open composition before they fire it.) *)
Definition listen (e : InputEvent) (composing : bool)
  : option bool * list Emit :=
  match e with
  | compositionstart => (Some true, [])
  | compositionend elementValue =>
      if composing then (Some false, inputValue_set elementValue)
      else (None, [])
  | input elementValue =>
      (None, if composing then [] else inputValue_set elementValue)
  | _ => (None, on e)
  end.

(** The three events of the focus/change/cancel surface. *)
Definition surface (e : Emit) : bool :=
  match e with
  | textFocused | textChanged | cancelTextChange => true
  | update_value _ => false
  end.

(** An instance of the wrapper: its props and the [id] of [data()]. *)
Record Instance : Type := {
  props : Props;
  id : string
}.

(** [data()]: the text of [Math.random()] without its first two
    characters. *)
Definition data (random : string) : string := substring_from 2 random.

Definition create (p : Props) (random : string) : Instance :=
  {| props := p; id := data random |}.

(** The listeners and the setter as code of the instance: they emit, and
    assign to nothing of [this]. *)
Definition handle (e : InputEvent) (composing : bool) (this : Instance)
  : Instance * list Emit :=
  (this, snd (listen e composing)).

(** The template string [`field-input-${id}`]. *)
Definition element_id (this : Instance) : string :=
  "field-input-" ++ id this.

(** The children of the root [<LayoutRow>]. *)
Inductive Child : Type :=
| input_el (class : list string) (element_id type value : string)
    (spellcheck disabled : bool)
| label_el (for_ text : string)
| slot_outlet.

Record View : Type := {
  class : list string;
  children : list Child
}.

(** The template: the root carries [field-input] and, when disabled,
    [disabled]; the [<input>] comes first, then the [<label>] under
    [v-if="label"], then the slot. *)
Definition render (this : Instance) : View :=
  let p := props this in
  {| class := "field-input" :: (if disabled p then ["disabled"] else []);
     children :=
       (input_el (if truthy (label p) then ["has-label"] else [])
          (element_id this) "text" (inputValue_get p)
          (spellcheck p) (disabled p)
        :: match label p with
           | Some text =>
               if truthy (label p) then [label_el (element_id this) text]
               else []
           | None => []
           end ++ [slot_outlet])%list |}.

End FieldInput.

(** * The text-input specialization *)

Module TextInput.

(** [props:] of the component. *)
Record Props : Type := {
  value : string;
  label : option string;
  disabled : bool
}.

#[global] Instance Props_eq_dec : EqDecision Props.
Proof. solve_decision. Defined.

(** [emits: ["update:value"]]. *)
Inductive Emit : Type :=
| update_value (value : string).

(** The [HTMLInputElement] behind [$refs.fieldInput.$refs.input]: its text,
    its selection range, whether it has the focus, and the [composing]
    flag that [v-model] keeps on it. *)
Record HTMLInputElement : Type := {
  el_value : string;
  selectionStart : nat;
  selectionEnd : nat;
  focused : bool;
  composing : bool
}.

(** The calls the methods make on the element. *)
Inductive DomCall : Type :=
| set_value (v : string)
| select
| blur.

(** Assigning to [value]: the text is stored without its line breaks; if
    that differs from the text held, the caret moves to its end and the
    selection is dropped; otherwise nothing changes. *)
Definition el_set_value (v : string) (el : HTMLInputElement)
  : HTMLInputElement :=
  let v := strip_line_breaks v in
  if decide (v = el_value el) then el
  else {| el_value := v;
          selectionStart := String.length v;
          selectionEnd := String.length v;
          focused := focused el;
          composing := composing el |}.

(** [select()] selects the whole text. *)
Definition el_select (el : HTMLInputElement) : HTMLInputElement :=
  {| el_value := el_value el;
     selectionStart := 0;
     selectionEnd := String.length (el_value el);
     focused := focused el;
     composing := composing el |}.

(** [blur()] takes the focus away. *)
Definition el_blur (el : HTMLInputElement) : HTMLInputElement :=
  {| el_value := el_value el;
     selectionStart := selectionStart el;
     selectionEnd := selectionEnd el;
     focused := false;
     composing := composing el |}.

Definition perform (c : DomCall) (el : HTMLInputElement) : HTMLInputElement :=
  match c with
  | set_value v => el_set_value v el
  | select => el_select el
  | blur => el_blur el
  end.

(** A mounted instance: props, [data()], the referenced element and the
    calls made on it so far, oldest first. *)
Record Instance : Type := {
  props : Props;
  editing : bool;
  inputElement : HTMLInputElement;
  calls : list DomCall
}.

(** [data()] at creation. *)
Definition create (p : Props) (el : HTMLInputElement) : Instance :=
  {| props := p; editing := false; inputElement := el; calls := [] |}.

Definition set_editing (b : bool) (this : Instance) : Instance :=
  {| props := props this; editing := b;
     inputElement := inputElement this; calls := calls this |}.

Definition call (c : DomCall) (this : Instance) : Instance :=
  {| props := props this; editing := editing this;
     inputElement := perform c (inputElement this);
     calls := (calls this ++ [c])%list |}.

(** The parent passes new props. *)
Definition set_props (p : Props) (this : Instance) : Instance :=
  {| props := p; editing := editing this;
     inputElement := inputElement this; calls := calls this |}.

(** [v-model] writes its flag on the element. *)
Definition set_composing (b : bool) (this : Instance) : Instance :=
  {| props := props this; editing := editing this;
     inputElement :=
       {| el_value := el_value (inputElement this);
          selectionStart := selectionStart (inputElement this);
          selectionEnd := selectionEnd (inputElement this);
          focused := focused (inputElement this);
          composing := b |};
     calls := calls this |}.

(** What [v-model] does to the element when the wrapper re-renders:
    nothing during a composition; otherwise the bound text is assigned if
    the element holds another one. *)
Definition el_sync (v : string) (el : HTMLInputElement) : HTMLInputElement :=
  if composing el then el
  else if decide (el_value el = v) then el
  else el_set_value v el.

(** Computed [text]. *)
Definition text_get (this : Instance) : string := value (props this).

Definition text_set (value : string) : list Emit := [update_value value].

(** [methods:] *)
Definition onTextFocused (this : Instance) : Instance :=
  let this := set_editing true this in
  let this := call (set_value (text_get this)) this in
  call select this.

Definition onCancelTextChange (this : Instance) : Instance :=
  let this := set_editing false this in
  call blur this.

Definition onTextChanged (this : Instance) : Instance :=
  if editing this then onCancelTextChange this else this.

(** The props the template passes down to [<FieldInput>]. *)
Definition fieldInput (this : Instance) : FieldInput.Props :=
  {| FieldInput.value := text_get this;
     FieldInput.label := label (props this);
     FieldInput.spellcheck := true;
     FieldInput.disabled := disabled (props this) |}.

(** The listeners the template puts on [<FieldInput>]. *)
Definition on (e : FieldInput.Emit) (this : Instance)
  : Instance * list Emit :=
  match e with
  | FieldInput.update_value v => (this, text_set v)
  | FieldInput.textFocused => (onTextFocused this, [])
  | FieldInput.textChanged => (onTextChanged this, [])
  | FieldInput.cancelTextChange => (onCancelTextChange this, [])
  end.

(** Several events from the child in a row; the emitted events are kept in
    order. *)
Fixpoint deliver (es : list FieldInput.Emit) (this : Instance)
  : Instance * list Emit :=
  match es with
  | [] => (this, [])
  | e :: es =>
      let '(this, out) := on e this in
      let '(this, out') := deliver es this in
      (this, (out ++ out')%list)
  end.

(** The re-render after new props: the text bound to the input is
    [text]. *)
Definition rerender (this : Instance) : Instance :=
  {| props := props this; editing := editing this;
     inputElement := el_sync (value (props this)) (inputElement this);
     calls := calls this |}.

(** An interaction with the text box, through the base wrapper.  What the
    browser itself did to the element (focus moved, text typed) is already
    in the instance the listeners run on; the listeners see the element's
    [composing] flag, [v-model] writes it, and what the wrapper emits is
    delivered. *)
Definition interact (e : FieldInput.InputEvent) (this : Instance)
  : Instance * list Emit :=
  let '(written, emitted) :=
    FieldInput.listen e (composing (inputElement this)) in
  deliver emitted
    match written with
    | Some b => set_composing b this
    | None => this
    end.

(** What can happen to a mounted instance: the child emits, or the parent
    passes props; props that differ from the current ones make the
    components re-render. *)
Inductive Action : Type :=
| child (e : FieldInput.Emit)
| parent (p : Props).

Definition step (a : Action) (this : Instance) : Instance :=
  match a with
  | child e => fst (on e this)
  | parent p =>
      if decide (p = props this) then this
      else rerender (set_props p this)
  end.

Definition run (actions : list Action) (this : Instance) : Instance :=
  foldl (fun this a => step a this) this actions.

(** The actions that end edit mode. *)
Definition closes (a : Action) : bool :=
  match a with
  | child FieldInput.textChanged | child FieldInput.cancelTextChange => true
  | _ => false
  end.

(** The template: one [<FieldInput class="text-input">] with the props of
    [fieldInput]; [child_id] is the [id] the child drew at creation. *)
Definition render (child_id : string) (this : Instance)
  : string * FieldInput.View :=
  ("text-input",
   FieldInput.render {| FieldInput.props := fieldInput this;
                        FieldInput.id := child_id |}).

(** The element as an event finds it: an [input] or [compositionend]
    event finds the text it reports, the caret at its end (where typing
    leaves it unless the user moves it); a focus event finds the element
    focused, a blur event unfocused. *)
Definition arrive (e : FieldInput.InputEvent) (el : HTMLInputElement)
  : HTMLInputElement :=
  match e with
  | FieldInput.input v | FieldInput.compositionend v =>
      {| el_value := v;
         selectionStart := String.length v;
         selectionEnd := String.length v;
         focused := focused el;
         composing := composing el |}
  | FieldInput.focus =>
      {| el_value := el_value el;
         selectionStart := selectionStart el;
         selectionEnd := selectionEnd el;
         focused := true;
         composing := composing el |}
  | FieldInput.blur => el_blur el
  | _ => el
  end.

Definition arrived (e : FieldInput.InputEvent) (this : Instance)
  : Instance :=
  {| props := props this; editing := editing this;
     inputElement := arrive e (inputElement this);
     calls := calls this |}.

(** A sequence of interactions with the text box, one after the other:
    each event arrives at the element, then the listeners run; what the
    parent receives is kept in order. *)
Fixpoint session (es : list FieldInput.InputEvent) (this : Instance)
  : Instance * list Emit :=
  match es with
  | [] => (this, [])
  | e :: es =>
      let '(this, out) := interact e (arrived e this) in
      let '(this, out') := session es this in
      (this, (out ++ out')%list)
  end.

(** The interactions bound to the commit or the cancel handler. *)
Definition ends_edit (e : FieldInput.InputEvent) : bool :=
  match e with
  | FieldInput.blur | FieldInput.change
  | FieldInput.keydown FieldInput.KeyEnter
  | FieldInput.keydown FieldInput.KeyEsc => true
  | _ => false
  end.

Definition is_focus (e : FieldInput.InputEvent) : bool :=
  match e with
  | FieldInput.focus => true
  | _ => false
  end.

Definition is_escape (e : FieldInput.InputEvent) : bool :=
  match e with
  | FieldInput.keydown FieldInput.KeyEsc => true
  | _ => false
  end.

(** The texts of the [input] events, in order. *)
Definition texts (es : list FieldInput.InputEvent) : list string :=
  omap (fun e => match e with
                 | FieldInput.input v => Some v
                 | _ => None
                 end) es.

(** What the user typed as far as [v-model] passes it on, starting inside
    ([composing = true]) or outside a composition: the text of every
    [input] event outside a composition and the text at the end of every
    composition, in order. *)
Fixpoint typed (es : list FieldInput.InputEvent) (composing : bool)
  : list string :=
  match es with
  | [] => []
  | FieldInput.input v :: es =>
      if composing then typed es composing else v :: typed es composing
  | FieldInput.compositionstart :: es => typed es true
  | FieldInput.compositionend v :: es =>
      if composing then v :: typed es false else typed es composing
  | _ :: es => typed es composing
  end.

(** The [composing] flag after an event, from the flag before it. *)
Definition composing_after (e : FieldInput.InputEvent) (composing : bool)
  : bool :=
  match e with
  | FieldInput.compositionstart => true
  | FieldInput.compositionend _ => false
  | _ => composing
  end.

Definition is_set_value (c : DomCall) : bool :=
  match c with
  | set_value _ => true
  | _ => false
  end.

(** The texts assigned to the element's [value], oldest first. *)
Definition assignments (this : Instance) : list DomCall :=
  List.filter is_set_value (calls this).

Definition is_blur (c : DomCall) : bool :=
  match c with
  | blur => true
  | _ => false
  end.

(** How many times [blur()] was called on the element. *)
Definition blur_calls (this : Instance) : nat :=
  length (List.filter is_blur (calls this)).

End TextInput.

(** * Concrete inputs

    Closed instances on which the components are evaluated below. *)

Module Fixtures.

(** A row descriptor as the two imported type guards see it: each guard is
    a boolean test on the object, and nothing in the dispatcher makes one
    answer depend on the other. *)
Record Descriptor : Type := {
  name : string;
  passesRow : bool;
  passesSection : bool
}.

Definition a_row : Descriptor :=
  {| name := "Opacity"; passesRow := true; passesSection := false |}.

Definition a_section : Descriptor :=
  {| name := "Transform"; passesRow := false; passesSection := true |}.

Definition a_stranger : Descriptor :=
  {| name := "Separator"; passesRow := false; passesSection := false |}.

Definition a_hybrid : Descriptor :=
  {| name := "Fill"; passesRow := true; passesSection := true |}.

Definition tidy_layout : WidgetLayout.WidgetLayout Descriptor string :=
  {| WidgetLayout.layout := [a_row; a_section; a_row];
     WidgetLayout.layout_target := "PropertiesPanel" |}.

Definition broken_layout : WidgetLayout.WidgetLayout Descriptor string :=
  {| WidgetLayout.layout := [a_row; a_stranger; a_section];
     WidgetLayout.layout_target := "PropertiesPanel" |}.

Definition mixed_layout : WidgetLayout.WidgetLayout Descriptor string :=
  {| WidgetLayout.layout := [a_section; a_hybrid; a_stranger];
     WidgetLayout.layout_target := "ToolOptions" |}.

Definition name_props : TextInput.Props :=
  {| TextInput.value := "Layer 1";
     TextInput.label := Some "Name";
     TextInput.disabled := false |}.

(** The element while the user is in the middle of an edit. *)
Definition dirty_element : TextInput.HTMLInputElement :=
  {| TextInput.el_value := "Layer";
     TextInput.selectionStart := 5;
     TextInput.selectionEnd := 5;
     TextInput.focused := true;
     TextInput.composing := false |}.

Definition idle : TextInput.Instance :=
  TextInput.create name_props dirty_element.

Definition busy : TextInput.Instance :=
  TextInput.onTextFocused idle.

(** A value with a line feed in it. *)
Definition two_lines : string :=
  String "a" (String "010" (String "b" EmptyString)).

Definition two_lines_props : TextInput.Props :=
  {| TextInput.value := two_lines;
     TextInput.label := None;
     TextInput.disabled := false |}.

(** The field in the middle of an input-method composition. *)
Definition composing_busy : TextInput.Instance :=
  TextInput.set_composing true busy.

(** Focus, type twice, press Enter, then the blur that follows. *)
Definition typing_session : list FieldInput.InputEvent :=
  [ FieldInput.focus;
    FieldInput.input "Layer 1a";
    FieldInput.input "Layer 1ab";
    FieldInput.keydown FieldInput.KeyEnter;
    FieldInput.blur ].

(** Focus, then two letters through an input method. *)
Definition composing_session : list FieldInput.InputEvent :=
  [ FieldInput.focus;
    FieldInput.compositionstart;
    FieldInput.input "Layer 1 n";
    FieldInput.input "Layer 1 ni";
    FieldInput.compositionend "Layer 1 ni" ].

(** The same field, disabled and without a label. *)
Definition locked_props : TextInput.Props :=
  {| TextInput.value := "Layer 1";
     TextInput.label := None;
     TextInput.disabled := true |}.

End Fixtures.

(** * Properties of the layout dispatcher *)

Section DispatcherProperties.

Import WidgetLayout.

Context {LayoutRow LayoutTarget : Type}.
Variables isWidgetRow isWidgetSection : LayoutRow -> bool.

Local Abbreviation layoutRowType := (layoutRowType isWidgetRow isWidgetSection).
Local Abbreviation renderList := (renderList isWidgetRow isWidgetSection).
Local Abbreviation render := (render isWidgetRow isWidgetSection).
Local Abbreviation known := (known isWidgetRow isWidgetSection).
Local Abbreviation WidgetLayout := (WidgetLayout LayoutRow LayoutTarget).
Local Abbreviation VNode := (VNode LayoutRow LayoutTarget).

(** The three paths through [layoutRowType]. *)
Lemma layoutRowType_first (row : LayoutRow) :
  isWidgetRow row = true -> layoutRowType row = Return WidgetRow.
Proof. intros Hrow. unfold WidgetLayout.layoutRowType. now rewrite Hrow. Qed.

Lemma layoutRowType_second (row : LayoutRow) :
  isWidgetRow row = false -> isWidgetSection row = true ->
  layoutRowType row = Return WidgetSection.
Proof.
  intros Hrow Hsection. unfold WidgetLayout.layoutRowType.
  now rewrite Hrow, Hsection.
Qed.

Lemma layoutRowType_neither (row : LayoutRow) :
  isWidgetRow row = false -> isWidgetSection row = false ->
  layoutRowType row = Throw "Layout row type does not exist".
Proof.
  intros Hrow Hsection. unfold WidgetLayout.layoutRowType.
  now rewrite Hrow, Hsection.
Qed.

(** Whatever [layoutRowType] returns, the row passed that component's
    guard. *)
Lemma layoutRowType_inv (row : LayoutRow) (c : Component) :
  layoutRowType row = Return c ->
  (c = WidgetRow /\ isWidgetRow row = true) \/
  (c = WidgetSection /\ isWidgetRow row = false /\ isWidgetSection row = true).
Proof.
  unfold WidgetLayout.layoutRowType.
  destruct (isWidgetRow row) eqn:Hrow;
    [| destruct (isWidgetSection row) eqn:Hsection ];
    intros Heq; inversion Heq; subst; auto.
Qed.

Lemma layoutRowType_known (row : LayoutRow) :
  returns (layoutRowType row) <-> known row = true.
Proof.
  unfold returns, WidgetLayout.known, WidgetLayout.layoutRowType.
  destruct (isWidgetRow row), (isWidgetSection row); simpl; split;
    intros H; try reflexivity; try (eexists; reflexivity).
  - destruct H as [c Hc]. discriminate Hc.
  - discriminate H.
Qed.

(** [renderList] on rows the dispatcher knows: one node per row, at the
    row's position, carrying the row and the target. *)
Lemma renderList_known (target : LayoutTarget) (rows : list LayoutRow) :
  forall index : nat,
    Forall (fun row => known row = true) rows ->
    exists vnodes : list VNode,
      renderList target index rows = Return vnodes /\
      map widgetData vnodes = rows /\
      forall (i : nat) (row : LayoutRow),
        rows !! i = Some row ->
        exists c,
          layoutRowType row = Return c /\
          vnodes !! i = Some {| key := index + i; is_ := c;
                                widgetData := row; layoutTarget := target |}.
Proof.
  induction rows as [| row rest IH]; intros index Hknown.
  - exists []. repeat split. intros i row Hi. discriminate Hi.
  - apply Forall_cons in Hknown as [Hrow Hrest].
    apply layoutRowType_known in Hrow as [c Hc].
    destruct (IH (S index) Hrest) as (vnodes & Hrun & Hdata & Hnth).
    exists ({| key := index; is_ := c; widgetData := row;
               layoutTarget := target |} :: vnodes).
    split; [| split].
    + simpl. rewrite Hc. simpl. rewrite Hrun. reflexivity.
    + simpl. now rewrite Hdata.
    + intros [| i] row' Hi; simpl in Hi.
      * inversion Hi; subst row'. exists c. split; [exact Hc |].
        simpl. now rewrite Nat.add_0_r.
      * destruct (Hnth i row' Hi) as (c' & Hc' & Hv).
        exists c'. split; [exact Hc' |].
        simpl. rewrite Hv. do 2 f_equal. lia.
Qed.

(** [renderList] throws as soon as one row passes neither guard. *)
Lemma renderList_stranger (target : LayoutTarget) (rows : list LayoutRow) :
  forall index : nat,
    Exists (fun row => known row = false) rows ->
    renderList target index rows = Throw "Layout row type does not exist".
Proof.
  induction rows as [| row rest IH]; intros index Hex.
  - inversion Hex.
  - simpl. unfold WidgetLayout.known in Hex, IH.
    destruct (isWidgetRow row) eqn:Hrow;
      [| destruct (isWidgetSection row) eqn:Hsection ].
    + rewrite (layoutRowType_first row Hrow). simpl.
      apply Exists_cons in Hex as [Hbad | Hex].
      * rewrite Hrow in Hbad. discriminate Hbad.
      * now rewrite (IH (S index) Hex).
    + rewrite (layoutRowType_second row Hrow Hsection). simpl.
      apply Exists_cons in Hex as [Hbad | Hex].
      * rewrite Hrow, Hsection in Hbad. discriminate Hbad.
      * now rewrite (IH (S index) Hex).
    + now rewrite (layoutRowType_neither row Hrow Hsection).
Qed.

(** When [renderList] returns, every row has its node. *)
Lemma renderList_inv (target : LayoutTarget) (rows : list LayoutRow)
    (index : nat) (vnodes : list VNode) :
  renderList target index rows = Return vnodes ->
  forall (i : nat) (row : LayoutRow),
    rows !! i = Some row ->
    exists c,
      layoutRowType row = Return c /\
      vnodes !! i = Some {| key := index + i; is_ := c;
                            widgetData := row; layoutTarget := target |}.
Proof.
  intros Hrender.
  assert (Hknown : Forall (fun row => known row = true) rows).
  { apply Forall_forall. intros row Hin.
    destruct (known row) eqn:Hk; [reflexivity |].
    assert (Hex : Exists (fun row => known row = false) rows)
      by (apply Exists_exists; eauto).
    rewrite (renderList_stranger target rows index Hex) in Hrender.
    discriminate Hrender. }
  destruct (renderList_known target rows index Hknown)
    as (vnodes' & Hrun & _ & Hnth).
  rewrite Hrun in Hrender. inversion Hrender; subst vnodes'. exact Hnth.
Qed.

(** C1 (as the code has it).  For every row descriptor of the layout list
    that passes [isWidgetRow] or [isWidgetSection], the dispatcher selects
    one of the two row-kind components by the guards alone: [WidgetRow]
    when the row passes [isWidgetRow]; [WidgetSection] when it passes
    [isWidgetSection] and did not pass [isWidgetRow], which is tested
    first.  The row passed the guard of the component selected, and when
    the layout renders, the node at the row's position is that
    component. *)
Theorem layoutRowType_selects (props : WidgetLayout) (i : nat)
    (row : LayoutRow) :
  layout props !! i = Some row ->
  isWidgetRow row = true \/ isWidgetSection row = true ->
  exists c : Component,
    layoutRowType row = Return c /\
    (isWidgetRow row = true -> c = WidgetRow) /\
    (isWidgetSection row = true -> isWidgetRow row = false ->
     c = WidgetSection) /\
    ((c = WidgetRow /\ isWidgetRow row = true) \/
     (c = WidgetSection /\ isWidgetSection row = true)) /\
    (forall vnodes, render props = Return vnodes ->
       exists vnode, vnodes !! i = Some vnode /\ is_ vnode = c).
Proof.
  intros Hi Hguard.
  assert (Hreturns : returns (layoutRowType row)).
  { apply layoutRowType_known. unfold WidgetLayout.known.
    destruct Hguard as [-> | ->]; [reflexivity | apply orb_true_r]. }
  destruct Hreturns as [c Hc]. exists c. split; [exact Hc |].
  destruct (layoutRowType_inv row c Hc) as [[-> Hrow] | (-> & Hrow & Hsection)].
  - repeat split; auto.
    + intros _ Hno. congruence.
    + intros vnodes Hrender. unfold WidgetLayout.render in Hrender.
      destruct (renderList_inv _ _ _ _ Hrender i row Hi) as (c & Hc' & Hv).
      exists {| key := 0 + i; is_ := c; widgetData := row;
                layoutTarget := layout_target props |}.
      split; [exact Hv | simpl; congruence].
  - repeat split; auto.
    + intros Hyes. congruence.
    + intros vnodes Hrender. unfold WidgetLayout.render in Hrender.
      destruct (renderList_inv _ _ _ _ Hrender i row Hi) as (c & Hc' & Hv).
      exists {| key := 0 + i; is_ := c; widgetData := row;
                layoutTarget := layout_target props |}.
      split; [exact Hv | simpl; congruence].
Qed.

(** C2 (as the code has it).  For every layout object whose row descriptors
    each pass [isWidgetRow] or [isWidgetSection], the render returns exactly
    one component per descriptor of [layout.layout], in the order of the
    list, each receiving that descriptor as [widgetData] together with the
    layout's [layout_target]. *)
Theorem render_one_to_one (props : WidgetLayout) :
  (forall row, row ∈ layout props ->
     isWidgetRow row = true \/ isWidgetSection row = true) ->
  exists vnodes : list VNode,
    render props = Return vnodes /\
    length vnodes = length (layout props) /\
    map widgetData vnodes = layout props /\
    forall (i : nat) (row : LayoutRow),
      layout props !! i = Some row ->
      exists c,
        layoutRowType row = Return c /\
        vnodes !! i = Some {| key := i; is_ := c; widgetData := row;
                              layoutTarget := layout_target props |}.
Proof.
  intros Hall.
  assert (Hknown : Forall (fun row => known row = true) (layout props)).
  { apply Forall_forall. intros row Hin. unfold WidgetLayout.known.
    destruct (Hall row Hin) as [-> | ->]; [reflexivity | apply orb_true_r]. }
  destruct (renderList_known (layout_target props) (layout props) 0 Hknown)
    as (vnodes & Hrender & Hdata & Hnth).
  exists vnodes. split; [exact Hrender |]. split; [| split].
  - rewrite <- Hdata. now rewrite length_map.
  - exact Hdata.
  - exact Hnth.
Qed.

(** A layout with a row that passes neither guard does not render. *)
Lemma render_stranger (props : WidgetLayout) (row : LayoutRow) :
  row ∈ layout props -> known row = false ->
  render props = Throw "Layout row type does not exist".
Proof.
  intros Hin Hbad. apply renderList_stranger, Exists_exists. eauto.
Qed.

(** C7.  A row descriptor that passes neither [isWidgetRow] nor
    [isWidgetSection] makes [layoutRowType] throw the error
    "Layout row type does not exist" and no component is selected; a
    component is returned if and only if the row passes one of the two
    guards. *)
Theorem layoutRowType_throws (row : LayoutRow) :
  (isWidgetRow row = false /\ isWidgetSection row = false ->
   layoutRowType row = Throw "Layout row type does not exist" /\
   forall c, layoutRowType row <> Return c) /\
  ((exists c, layoutRowType row = Return c) <->
   isWidgetRow row = true \/ isWidgetSection row = true).
Proof.
  split.
  - intros [Hrow Hsection].
    rewrite (layoutRowType_neither row Hrow Hsection).
    split; [reflexivity | intros c Hc; discriminate Hc].
  - split.
    + intros [c Hc].
      destruct (layoutRowType_inv row c Hc) as [[_ H] | (_ & _ & H)]; auto.
    + intros [Hrow | Hsection].
      * exists WidgetRow. now apply layoutRowType_first.
      * destruct (isWidgetRow row) eqn:Hrow.
        -- exists WidgetRow. now apply layoutRowType_first.
        -- exists WidgetSection. now apply layoutRowType_second.
Qed.

End DispatcherProperties.

(** ** The dispatcher on concrete layouts *)

Section DispatcherExamples.

Import WidgetLayout Fixtures.

Local Abbreviation layoutRowType := (layoutRowType passesRow passesSection).
Local Abbreviation render := (render passesRow passesSection).

(** The second row of a layout of known rows is dispatched to
    [WidgetSection]. *)
Lemma layoutRowType_selects_witness :
  layout tidy_layout !! 1 = Some a_section /\
  layoutRowType a_section = Return WidgetSection.
Proof.
  split; [reflexivity |].
  destruct (layoutRowType_selects passesRow passesSection
              tidy_layout 1 a_section eq_refl (or_intror eq_refl))
    as (c & Hc & _ & Hsection & _).
  rewrite Hc. f_equal. apply Hsection; reflexivity.
Defined.

(** C1 as stated fails on a layout with a row that passes neither guard
    and a row that passes both.  For the first no component is selected at
    all, so it is not rendered as one of the two components.  The second
    passes [isWidgetSection], and the component selected for it is
    [WidgetRow], not [WidgetSection]. *)
Lemma layoutRowType_selects_counterexample :
  (a_stranger ∈ layout mixed_layout /\
   layoutRowType a_stranger = Throw "Layout row type does not exist") /\
  (a_hybrid ∈ layout mixed_layout /\
   passesSection a_hybrid = true /\
   layoutRowType a_hybrid = Return WidgetRow) /\
  ~ (forall row,
       row ∈ layout mixed_layout ->
       exists c, layoutRowType row = Return c /\
                 (passesRow row = true -> c = WidgetRow) /\
                 (passesSection row = true -> c = WidgetSection)).
Proof.
  assert (Hstranger : a_stranger ∈ layout mixed_layout)
    by (simpl; do 2 apply list_elem_of_further; apply list_elem_of_here).
  assert (Hhybrid : a_hybrid ∈ layout mixed_layout)
    by (simpl; apply list_elem_of_further, list_elem_of_here).
  split; [split; [exact Hstranger | reflexivity] |].
  split; [split; [exact Hhybrid | split; reflexivity] |].
  intros Hclaim.
  destruct (Hclaim a_stranger Hstranger) as (c & Hc & _).
  vm_compute in Hc. discriminate Hc.
Qed.

(** A layout of three known rows renders three nodes, keyed 0, 1, 2. *)
Lemma render_one_to_one_witness :
  render tidy_layout =
  Return [ {| key := 0; is_ := WidgetRow; widgetData := a_row;
              layoutTarget := "PropertiesPanel" |};
           {| key := 1; is_ := WidgetSection; widgetData := a_section;
              layoutTarget := "PropertiesPanel" |};
           {| key := 2; is_ := WidgetRow; widgetData := a_row;
              layoutTarget := "PropertiesPanel" |} ].
Proof.
  assert (Hall : forall row, row ∈ layout tidy_layout ->
                             passesRow row = true \/ passesSection row = true).
  { intros row Hin. simpl in Hin.
    repeat (apply elem_of_cons in Hin as [-> | Hin]);
      [left | right | left |]; try reflexivity.
    inversion Hin. }
  destruct (render_one_to_one passesRow passesSection tidy_layout Hall)
    as (vnodes & Hrender & _).
  rewrite Hrender. vm_compute in Hrender. inversion Hrender. reflexivity.
Defined.

(** C2 as stated fails on a layout with a row that passes neither guard:
    the render throws, so no list of components comes out of it. *)
Lemma render_one_to_one_counterexample :
  render broken_layout = Throw "Layout row type does not exist" /\
  ~ (exists vnodes,
       render broken_layout = Return vnodes /\
       length vnodes = length (layout broken_layout)).
Proof.
  assert (Hthrow :
    render broken_layout = Throw "Layout row type does not exist").
  { apply (render_stranger passesRow passesSection broken_layout a_stranger).
    - simpl. apply list_elem_of_further, list_elem_of_here.
    - reflexivity. }
  split; [exact Hthrow |].
  intros (vnodes & Hrender & _). rewrite Hthrow in Hrender.
  discriminate Hrender.
Qed.

(** A row passing neither guard throws; a row passing both returns. *)
Lemma layoutRowType_throws_witness :
  layoutRowType a_stranger = Throw "Layout row type does not exist" /\
  (exists c, layoutRowType a_hybrid = Return c).
Proof.
  split.
  - apply (layoutRowType_throws passesRow passesSection a_stranger).
    split; reflexivity.
  - apply (layoutRowType_throws passesRow passesSection a_hybrid).
    left. reflexivity.
Defined.

End DispatcherExamples.

(** * Properties of the base field wrapper *)

Section FieldInputProperties.

Import FieldInput.

(** The interactions with a listener that emits a surface event. *)
Lemma on_surface_inv (e : InputEvent) (x : Emit) :
  x ∈ on e -> surface x = true ->
  (x = textFocused /\ e = focus) \/
  (x = textChanged /\ (e = blur \/ e = change \/ e = keydown KeyEnter)) \/
  (x = cancelTextChange /\ e = keydown KeyEsc).
Proof.
  destruct e as [| | | [| | key] | typed | type | | ended]; simpl;
    intros Hin Hsurface;
    try (apply list_elem_of_singleton in Hin; subst x);
    try (inversion Hin; fail);
    try discriminate Hsurface;
    intuition auto.
Qed.

Lemma on_declared (e : InputEvent) (x : Emit) :
  x ∈ on e -> emit_name x ∈ emits.
Proof.
  intros _. unfold emits.
  destruct x; simpl; repeat constructor.
Qed.

(** The composing flag makes no difference to the three surface events. *)
Lemma listen_surface (e : InputEvent) (c : bool) (x : Emit) :
  surface x = true -> (x ∈ snd (listen e c) <-> x ∈ on e).
Proof.
  intros Hsurface.
  destruct e as [| | | [| | key] | typed | type | | ended], c; simpl;
    try reflexivity; split; intros Hin;
    try (inversion Hin; fail);
    apply list_elem_of_singleton in Hin; subst x; discriminate Hsurface.
Qed.

(** C3.  The base wrapper's focus/change/cancel surface: [textFocused] on
    focus; [textChanged] on blur, on the change event and on the Enter key;
    [cancelTextChange] on the Escape key; no other interaction emits one of
    these three events, and nothing outside the [emits] declaration is ever
    emitted. *)
Theorem on_event_surface :
  on focus = [textFocused] /\
  on blur = [textChanged] /\
  on change = [textChanged] /\
  on (keydown KeyEnter) = [textChanged] /\
  on (keydown KeyEsc) = [cancelTextChange] /\
  (forall e x, x ∈ on e -> surface x = true ->
     (x = textFocused /\ e = focus) \/
     (x = textChanged /\ (e = blur \/ e = change \/ e = keydown KeyEnter)) \/
     (x = cancelTextChange /\ e = keydown KeyEsc)) /\
  (forall e x, x ∈ on e -> emit_name x ∈ emits) /\
  emits =
    "update:value" :: map emit_name [textFocused; textChanged; cancelTextChange].
Proof.
  repeat split; try reflexivity.
  - exact on_surface_inv.
  - exact on_declared.
Qed.

End FieldInputProperties.

(** * Properties of the text-input specialization *)

Section TextInputProperties.

Import TextInput.

(** What each method does to the fields of the instance. *)
Lemma onTextFocused_editing (this : Instance) :
  editing (onTextFocused this) = true.
Proof. reflexivity. Qed.

Lemma onCancelTextChange_editing (this : Instance) :
  editing (onCancelTextChange this) = false.
Proof. reflexivity. Qed.

Lemma onTextChanged_editing (this : Instance) :
  editing (onTextChanged this) = false.
Proof.
  unfold onTextChanged. destruct (editing this) eqn:Hediting.
  - apply onCancelTextChange_editing.
  - exact Hediting.
Qed.

Lemma onTextChanged_idle (this : Instance) :
  editing this = false -> onTextChanged this = this.
Proof. intros Hidle. unfold onTextChanged. now rewrite Hidle. Qed.

Lemma on_props (e : FieldInput.Emit) (this : Instance) :
  props (fst (on e this)) = props this.
Proof.
  destruct e; simpl; try reflexivity.
  unfold onTextChanged. now destruct (editing this).
Qed.

Lemma deliver_props (es : list FieldInput.Emit) :
  forall this : Instance, props (fst (deliver es this)) = props this.
Proof.
  induction es as [| e es IH]; intros this; simpl; [reflexivity |].
  pose proof (on_props e this) as He.
  destruct (on e this) as [this1 out1]. simpl in He.
  pose proof (IH this1) as Hes.
  destruct (deliver es this1) as [this2 out2]. simpl in Hes |- *.
  congruence.
Qed.

(** A text without line breaks is stored as it is. *)
Lemma strip_line_breaks_plain (s : string) :
  has_line_break s = false -> strip_line_breaks s = s.
Proof.
  induction s as [| c s IH]; simpl; [reflexivity |].
  destruct (is_line_break c); simpl; [discriminate |].
  intros Hplain. now rewrite IH.
Qed.

(** The element after [value = text; select()]. *)
Lemma select_after_set_value (v : string) (el : HTMLInputElement) :
  el_select (el_set_value v el) =
  {| el_value := strip_line_breaks v;
     selectionStart := 0;
     selectionEnd := String.length (strip_line_breaks v);
     focused := focused el;
     composing := composing el |}.
Proof.
  unfold el_set_value. simpl.
  destruct (decide (strip_line_breaks v = el_value el)) as [-> | Hne];
    reflexivity.
Qed.

(** C4.  On every focus event the focus handler runs; it enters edit mode,
    writes the current text into the element and then selects it: the
    element holds the current text (as a text input stores it, without
    line breaks; a text that has none is stored as it is), its own text is
    selected from the first to the last character, and the two calls were
    made in that order. *)
Theorem onTextFocused_selects_all (this : Instance) :
  interact FieldInput.focus this = (onTextFocused this, []) /\
  editing (onTextFocused this) = true /\
  el_value (inputElement (onTextFocused this))
    = strip_line_breaks (text_get this) /\
  (has_line_break (text_get this) = false ->
   el_value (inputElement (onTextFocused this)) = text_get this) /\
  selectionStart (inputElement (onTextFocused this)) = 0 /\
  selectionEnd (inputElement (onTextFocused this)) =
    String.length (el_value (inputElement (onTextFocused this))) /\
  calls (onTextFocused this) =
    (calls this ++ [set_value (text_get this); select])%list /\
  props (onTextFocused this) = props this.
Proof.
  assert (Hel : inputElement (onTextFocused this) =
                el_select (el_set_value (text_get this) (inputElement this)))
    by reflexivity.
  rewrite select_after_set_value in Hel.
  repeat split; try (rewrite Hel; reflexivity).
  - intros Hplain. rewrite Hel. simpl.
    now apply strip_line_breaks_plain.
  - unfold onTextFocused, call. simpl. now rewrite <- app_assoc.
Qed.

(** C5.  Commit and cancel both end edit mode: the commit handler run while
    [editing] is true, and the cancel handler run in any state, leave
    [editing] false and the element blurred, [blur()] being the last call
    made on it. *)
Theorem commit_and_cancel_end_editing (this : Instance) :
  (editing this = true ->
   editing (onTextChanged this) = false /\
   focused (inputElement (onTextChanged this)) = false /\
   calls (onTextChanged this) = (calls this ++ [blur])%list) /\
  (editing (onCancelTextChange this) = false /\
   focused (inputElement (onCancelTextChange this)) = false /\
   calls (onCancelTextChange this) = (calls this ++ [blur])%list).
Proof.
  split.
  - intros Hediting. unfold onTextChanged. rewrite Hediting.
    repeat split.
  - repeat split.
Qed.

(** How one action moves the [editing] flag. *)
Lemma step_editing (a : Action) (this : Instance) :
  editing (step a this) =
  match a with
  | child FieldInput.textFocused => true
  | child FieldInput.textChanged | child FieldInput.cancelTextChange => false
  | _ => editing this
  end.
Proof.
  destruct a as [[v | | |] | p]; simpl; try reflexivity.
  - apply onTextChanged_editing.
  - now destruct (decide (p = props this)).
Qed.

(** [editing] after a run: either it was on and nothing closed it, or the
    run has a focus that nothing closed afterwards. *)
Lemma run_editing (actions : list Action) :
  forall this : Instance,
    editing (run actions this) = true <->
    (editing this = true /\ Forall (fun a => closes a = false) actions) \/
    (exists before after,
       actions = (before ++ child FieldInput.textFocused :: after)%list /\
       Forall (fun a => closes a = false) after).
Proof.
  induction actions as [| a actions IH]; intros this.
  - simpl. split.
    + intros Hediting. left. split; [exact Hediting | constructor].
    + intros [[Hediting _] | (before & after & Heq & _)]; [exact Hediting |].
      destruct before; discriminate Heq.
  - change (run (a :: actions) this) with (run actions (step a this)).
    rewrite IH, step_editing. split.
    + intros [[Hstep Hrest] | (before & after & Heq & Hafter)].
      * destruct a as [[v | | |] | p]; try discriminate Hstep.
        -- left. split; [exact Hstep | constructor; [reflexivity | exact Hrest]].
        -- right. exists [], actions. split; [reflexivity | exact Hrest].
        -- left. split; [exact Hstep | constructor; [reflexivity | exact Hrest]].
      * right. exists (a :: before), after. split; [| exact Hafter].
        simpl. now rewrite Heq.
    + intros [[Hediting Hall] | (before & after & Heq & Hafter)].
      * apply Forall_cons in Hall as [Ha Hrest]. left. split; [| exact Hrest].
        destruct a as [[v | | |] | p]; try discriminate Ha;
          try exact Hediting; reflexivity.
      * destruct before as [| b before]; simpl in Heq;
          inversion Heq; subst.
        -- left. split; [reflexivity | exact Hafter].
        -- right. exists before, after. split; [reflexivity | exact Hafter].
Qed.

(** C6.  Edit-mode tracking as a state machine: [editing] starts false;
    an action that turns it on is the focus handler; an action that turns
    it off is the commit or the cancel handler; after a commit or a cancel
    it is off; hence after any run from creation it is on exactly when the
    run has a focus event with no commit or cancel after it. *)
Theorem editing_only_between_focus_and_close (p : Props)
    (el : HTMLInputElement) (actions : list Action) :
  editing (create p el) = false /\
  (forall this a, editing this = false -> editing (step a this) = true ->
     a = child FieldInput.textFocused) /\
  (forall this a, editing this = true -> editing (step a this) = false ->
     a = child FieldInput.textChanged \/
     a = child FieldInput.cancelTextChange) /\
  (forall this a, closes a = true -> editing (step a this) = false) /\
  (editing (run actions (create p el)) = true <->
   exists before after,
     actions = (before ++ child FieldInput.textFocused :: after)%list /\
     Forall (fun a => closes a = false) after).
Proof.
  split; [reflexivity |]. split; [| split; [| split]].
  - intros this a Hoff Hon. rewrite step_editing in Hon.
    destruct a as [[v | | |] | q]; congruence.
  - intros this a Hon Hoff. rewrite step_editing in Hoff.
    destruct a as [[v | | |] | q]; auto; congruence.
  - intros this a Hcloses. rewrite step_editing.
    destruct a as [[v | | |] | q]; try discriminate Hcloses; reflexivity.
  - rewrite run_editing. split.
    + intros [[Hcreate _] | Hfocus]; [discriminate Hcreate | exact Hfocus].
    + intros Hfocus. right. exact Hfocus.
Qed.

(** C8.  Outside edit mode the commit handler changes nothing, neither the
    state nor the element nor the calls made on it; so the [textChanged]
    that the base wrapper emits for the blur caused by the cancel handler's
    own [blur()] leaves the instance exactly as the cancel handler left
    it. *)
Theorem onTextChanged_skips_second_run (this : Instance) :
  (editing this = false ->
   onTextChanged this = this /\
   on FieldInput.textChanged this = (this, [])) /\
  FieldInput.on FieldInput.blur = [FieldInput.textChanged] /\
  onTextChanged (onCancelTextChange this) = onCancelTextChange this /\
  interact FieldInput.blur (onCancelTextChange this) =
    (onCancelTextChange this, []).
Proof.
  assert (Hagain :
    onTextChanged (onCancelTextChange this) = onCancelTextChange this)
    by (apply onTextChanged_idle, onCancelTextChange_editing).
  split; [| split; [reflexivity | split; [exact Hagain |]]].
  - intros Hidle. simpl. rewrite (onTextChanged_idle this Hidle). now split.
  - unfold interact. simpl. now rewrite Hagain.
Qed.

(** What the text input hands to its parent is what the wrapper handed to
    it as [update:value], with the same text. *)
Lemma deliver_forwards (es : list FieldInput.Emit) (v : string) :
  forall this : Instance,
    update_value v ∈ snd (deliver es this) <-> FieldInput.update_value v ∈ es.
Proof.
  induction es as [| e es IH]; intros this; simpl.
  - split; intros Hin; inversion Hin.
  - destruct (on e this) as [this1 out1] eqn:Hon.
    specialize (IH this1). destruct (deliver es this1) as [this2 out2].
    simpl in IH |- *. rewrite elem_of_app, IH, elem_of_cons.
    assert (Hhead : update_value v ∈ out1 <-> FieldInput.update_value v = e).
    { destruct e as [w | | |]; simpl in Hon; inversion Hon; subst.
      - unfold text_set. rewrite list_elem_of_singleton.
        split; intros Heq; inversion Heq; reflexivity.
      - split; intros Hin; [inversion Hin | discriminate Hin].
      - split; intros Hin; [inversion Hin | discriminate Hin].
      - split; intros Hin; [inversion Hin | discriminate Hin]. }
    now rewrite Hhead.
Qed.

Lemma interact_keeps_props (e : FieldInput.InputEvent) (this : Instance) :
  props (fst (interact e this)) = props this.
Proof.
  unfold interact.
  destruct (FieldInput.listen e (composing (inputElement this)))
    as [[b |] emitted]; now rewrite deliver_props.
Qed.

(** What the wrapper emits as [update:value] carries the text of the
    event: an [input] outside a composition, or the end of one. *)
Lemma listen_update_value (e : FieldInput.InputEvent) (c : bool)
    (v : string) :
  FieldInput.update_value v ∈ snd (FieldInput.listen e c) ->
  (e = FieldInput.input v /\ c = false) \/
  (e = FieldInput.compositionend v /\ c = true).
Proof.
  destruct e as [| | | [| | key] | typed | type | | ended], c; simpl;
    intros Hin;
    try (apply list_elem_of_singleton in Hin);
    try discriminate Hin; try (inversion Hin; fail).
  - left. inversion Hin. now split.
  - right. inversion Hin. now split.
Qed.

(** C9.  The value prop is never assigned, by the base wrapper or by the
    text input.  What the user types shows outside only as [update:value]:
    the wrapper emits it for an [input] event outside a composition and at
    the end of a composition, never during one, and it carries exactly the
    text of that event; the text input hands every such event on to its own
    parent with the same text and changes nothing of its state; no
    interaction changes the props of either component; the base wrapper
    shows the value prop and receives [label] and [disabled] as the text
    input got them. *)
Theorem value_only_through_update_value (this : Instance) (typed : string) :
  FieldInput.listen (FieldInput.input typed) false
    = (None, [FieldInput.update_value typed]) /\
  FieldInput.listen (FieldInput.input typed) true = (None, []) /\
  FieldInput.listen (FieldInput.compositionend typed) true
    = (Some false, [FieldInput.update_value typed]) /\
  (forall e c v,
     FieldInput.update_value v ∈ snd (FieldInput.listen e c) ->
     (e = FieldInput.input v /\ c = false) \/
     (e = FieldInput.compositionend v /\ c = true)) /\
  (forall e c wrapper,
     FieldInput.props (fst (FieldInput.handle e c wrapper))
       = FieldInput.props wrapper) /\
  on (FieldInput.update_value typed) this = (this, [update_value typed]) /\
  (composing (inputElement this) = false ->
   interact (FieldInput.input typed) this = (this, [update_value typed])) /\
  (composing (inputElement this) = true ->
   interact (FieldInput.input typed) this = (this, []) /\
   interact (FieldInput.compositionend typed) this
     = (set_composing false this, [update_value typed])) /\
  (forall e v,
     update_value v ∈ snd (interact e this) <->
     FieldInput.update_value v
       ∈ snd (FieldInput.listen e (composing (inputElement this)))) /\
  (forall e, props (fst (interact e this)) = props this) /\
  (forall e, fieldInput (fst (interact e this)) = fieldInput this) /\
  FieldInput.inputValue_get (fieldInput this) = value (props this) /\
  FieldInput.label (fieldInput this) = label (props this) /\
  FieldInput.disabled (fieldInput this) = disabled (props this).
Proof.
  split; [reflexivity |]. split; [reflexivity |]. split; [reflexivity |].
  split; [exact listen_update_value |].
  split; [reflexivity |]. split; [reflexivity |].
  split; [| split; [| split; [| split; [| split]]]].
  - intros Hplain. unfold interact. simpl. now rewrite Hplain.
  - intros Hcomposing. unfold interact. simpl. rewrite Hcomposing.
    now split.
  - intros e v. unfold interact.
    destruct (FieldInput.listen e (composing (inputElement this)))
      as [[b |] emitted]; apply deliver_forwards.
  - exact (fun e => interact_keeps_props e this).
  - intros e. unfold fieldInput, text_get.
    now rewrite interact_keeps_props.
  - repeat split.
Qed.

End TextInputProperties.

(** ** The text input on a concrete instance *)

Section TextInputExamples.

Import TextInput Fixtures.

(** Focusing the field while the element still shows a stale text: the
    element takes the prop's text, all seven characters selected. *)
Example focus_idle :
  interact FieldInput.focus idle =
  ({| props := name_props; editing := true;
      inputElement := {| el_value := "Layer 1"; selectionStart := 0;
                         selectionEnd := 7; focused := true;
                         composing := false |};
      calls := [set_value "Layer 1"; select] |}, []).
Proof. reflexivity. Qed.

(** Escape while editing, then the blur that follows. *)
Example escape_then_blur :
  let '(cancelled, _) := interact (FieldInput.keydown FieldInput.KeyEsc) busy in
  editing cancelled = false /\
  calls cancelled = [set_value "Layer 1"; select; blur] /\
  interact FieldInput.blur cancelled = (cancelled, []).
Proof. repeat split. Qed.

(** The selection reaches the end of the seven characters of the text; a
    value of three characters with a line feed in the middle leaves two
    characters in the element, both selected. *)
Lemma onTextFocused_selects_all_witness :
  selectionEnd (inputElement (onTextFocused idle)) = 7 /\
  el_value (inputElement
              (onTextFocused (create two_lines_props dirty_element))) = "ab" /\
  selectionEnd (inputElement
                  (onTextFocused (create two_lines_props dirty_element))) = 2.
Proof.
  destruct (onTextFocused_selects_all idle)
    as (_ & _ & Htext & _ & _ & Hend & _).
  destruct (onTextFocused_selects_all (create two_lines_props dirty_element))
    as (_ & _ & Htext' & _ & _ & Hend' & _).
  rewrite Hend, Hend', Htext, Htext'. repeat split.
Defined.

(** Committing while editing. *)
Lemma commit_and_cancel_end_editing_witness :
  editing busy = true /\
  editing (onTextChanged busy) = false /\
  focused (inputElement (onTextChanged busy)) = false.
Proof.
  split; [reflexivity |].
  destruct (commit_and_cancel_end_editing busy) as [Hcommit _].
  destruct (Hcommit eq_refl) as (Hoff & Hblurred & _).
  split; [exact Hoff | exact Hblurred].
Defined.

(** A run whose last focus is followed by typing and a prop update only. *)
Lemma editing_only_between_focus_and_close_witness :
  editing (run [child FieldInput.cancelTextChange;
                child FieldInput.textFocused;
                child (FieldInput.update_value "Layer 2");
                parent name_props]
               (create name_props dirty_element)) = true.
Proof.
  apply (editing_only_between_focus_and_close name_props dirty_element).
  exists [child FieldInput.cancelTextChange],
         [child (FieldInput.update_value "Layer 2"); parent name_props].
  split; [reflexivity |]. repeat constructor.
Defined.

(** A commit on an instance that is not being edited. *)
Lemma onTextChanged_skips_second_run_witness :
  editing idle = false /\ onTextChanged idle = idle.
Proof.
  split; [reflexivity |].
  destruct (onTextChanged_skips_second_run idle) as [Hidle _].
  apply Hidle. reflexivity.
Defined.

(** Typing while editing: one event out, the instance untouched; inside a
    composition nothing goes out until the composition ends. *)
Lemma value_only_through_update_value_witness :
  interact (FieldInput.input "Layer 2") busy
    = (busy, [update_value "Layer 2"]) /\
  interact (FieldInput.input "Layer 2") composing_busy
    = (composing_busy, []) /\
  interact (FieldInput.compositionend "Layer 2") composing_busy
    = (busy, [update_value "Layer 2"]).
Proof.
  destruct (value_only_through_update_value busy "Layer 2")
    as (_ & _ & _ & _ & _ & _ & Hplain & _).
  destruct (value_only_through_update_value composing_busy "Layer 2")
    as (_ & _ & _ & _ & _ & _ & _ & Hcomposing & _).
  destruct (Hcomposing eq_refl) as [Hduring Hend].
  split; [exact (Hplain eq_refl) |]. split; [exact Hduring |].
  rewrite Hend. reflexivity.
Defined.

End TextInputExamples.

(** * Further properties of the layout dispatcher *)

Section DispatcherRendering.

Import WidgetLayout.

Local Open Scope list_scope.

Context {LayoutRow LayoutTarget : Type}.
Variables isWidgetRow isWidgetSection : LayoutRow -> bool.

Local Abbreviation layoutRowType := (layoutRowType isWidgetRow isWidgetSection).
Local Abbreviation renderList := (renderList isWidgetRow isWidgetSection).
Local Abbreviation render := (render isWidgetRow isWidgetSection).
Local Abbreviation known := (known isWidgetRow isWidgetSection).
Local Abbreviation WidgetLayout := (WidgetLayout LayoutRow LayoutTarget).
Local Abbreviation VNode := (VNode LayoutRow LayoutTarget).

(** Either every row is known, or some row is not. *)
Lemma known_or_stranger (rows : list LayoutRow) :
  Forall (fun row => known row = true) rows \/
  Exists (fun row => known row = false) rows.
Proof.
  induction rows as [| row rest [Hall | Hex]].
  - left. constructor.
  - destruct (known row) eqn:Hrow.
    + left. now constructor.
    + right. now apply Exists_cons_hd.
  - right. now apply Exists_cons_tl.
Qed.

Lemma known_guards (row : LayoutRow) :
  known row = true <-> isWidgetRow row = true \/ isWidgetSection row = true.
Proof.
  unfold WidgetLayout.known.
  destruct (isWidgetRow row), (isWidgetSection row); simpl; intuition congruence.
Qed.

Lemma stranger_guards (row : LayoutRow) :
  known row = false <-> isWidgetRow row = false /\ isWidgetSection row = false.
Proof.
  unfold WidgetLayout.known.
  destruct (isWidgetRow row), (isWidgetSection row); simpl; intuition congruence.
Qed.

(** X1.  The render is all or nothing: it returns nodes exactly when every
    descriptor of the layout passes one of the two guards; otherwise it
    throws, always the same error, and some descriptor of the layout passes
    neither guard. *)
Theorem render_all_or_nothing (props : WidgetLayout) :
  ((exists vnodes, render props = Return vnodes) <->
   (forall row, row ∈ layout props ->
      isWidgetRow row = true \/ isWidgetSection row = true)) /\
  (forall message, render props = Throw message ->
     message = "Layout row type does not exist" /\
     exists row, row ∈ layout props /\
                 isWidgetRow row = false /\ isWidgetSection row = false).
Proof.
  unfold WidgetLayout.render.
  destruct (known_or_stranger (layout props)) as [Hall | Hex].
  - destruct (renderList_known isWidgetRow isWidgetSection
                (layout_target props) (layout props) 0 Hall)
      as (vnodes & Hrender & _).
    split.
    + split.
      * intros _ row Hin. apply known_guards.
        rewrite Forall_forall in Hall. now apply Hall.
      * intros _. now exists vnodes.
    + intros message Hthrow. rewrite Hrender in Hthrow. discriminate Hthrow.
  - pose proof (renderList_stranger isWidgetRow isWidgetSection
                  (layout_target props) (layout props) 0 Hex) as Hthrow.
    apply Exists_exists in Hex as (row & Hin & Hrow).
    split.
    + split.
      * intros [vnodes Hrender]. rewrite Hthrow in Hrender.
        discriminate Hrender.
      * intros Hguards. specialize (Hguards row Hin).
        apply known_guards in Hguards. congruence.
    + intros message Hmessage. rewrite Hthrow in Hmessage.
      inversion Hmessage; subst message. split; [reflexivity |].
      exists row. split; [exact Hin |]. now apply stranger_guards.
Qed.

(** The keys handed out by the loop count up from its start index. *)
Lemma renderList_keys (target : LayoutTarget) (rows : list LayoutRow) :
  forall (index : nat) (vnodes : list VNode),
    renderList target index rows = Return vnodes ->
    map key vnodes = seq index (length rows).
Proof.
  induction rows as [| row rest IH]; intros index vnodes Hrender;
    simpl in Hrender.
  - inversion Hrender. reflexivity.
  - destruct (layoutRowType row) as [c | message]; simpl in Hrender;
      [| discriminate Hrender].
    destruct (WidgetLayout.renderList _ _ target (S index) rest)
      as [tail | message] eqn:Htail; simpl in Hrender;
      [| discriminate Hrender].
    inversion Hrender; subst vnodes. simpl. f_equal. now apply IH.
Qed.

(** X2.  When the layout renders, the keys of the nodes are the positions
    0, 1, ..., n-1 of the descriptors, in order; no two nodes share a
    key. *)
Theorem render_keys (props : WidgetLayout) (vnodes : list VNode) :
  render props = Return vnodes ->
  map key vnodes = seq 0 (length (layout props)) /\
  NoDup (map key vnodes).
Proof.
  intros Hrender. apply renderList_keys in Hrender.
  split; [exact Hrender |]. rewrite Hrender. apply NoDup_seq.
Qed.

(** The loop over an appended list: the first part from the start index,
    the second from where the first stopped. *)
Lemma renderList_app (target : LayoutTarget) (rows more : list LayoutRow) :
  forall index : nat,
    renderList target index (rows ++ more) =
    (vnodes ← renderList target index rows;
     vnodes' ← renderList target (index + length rows) more;
     mret (vnodes ++ vnodes')).
Proof.
  induction rows as [| row rest IH]; intros index.
  - simpl. rewrite Nat.add_0_r.
    now destruct (WidgetLayout.renderList _ _ target index more).
  - simpl. destruct (layoutRowType row) as [c | message]; simpl;
      [| reflexivity].
    rewrite IH.
    destruct (WidgetLayout.renderList _ _ target (S index) rest)
      as [tail | message]; simpl; [| reflexivity].
    rewrite Nat.add_succ_r.
    now destruct (WidgetLayout.renderList _ _ target
                    (S (index + length rest)) more).
Qed.

(** X3.  Rows appended to a layout do not disturb the rows before them:
    when the longer layout renders, the shorter one renders too, and its
    nodes, with their keys, components and data, are the first nodes of
    the longer render. *)
Theorem render_append_stable (target : LayoutTarget)
    (rows more : list LayoutRow) (vnodes : list VNode) :
  render {| layout := rows ++ more; layout_target := target |}
    = Return vnodes ->
  render {| layout := rows; layout_target := target |}
    = Return (take (length rows) vnodes) /\
  length vnodes = length rows + length more.
Proof.
  unfold WidgetLayout.render. simpl. rewrite renderList_app.
  intros Hrender.
  destruct (renderList target 0 rows)
    as [front | message] eqn:Hfront; simpl in Hrender;
    [| discriminate Hrender].
  destruct (renderList target (length rows) more)
    as [back | message] eqn:Hback; simpl in Hrender;
    [| discriminate Hrender].
  inversion Hrender; subst vnodes.
  pose proof (f_equal length (renderList_keys target rows 0 front Hfront))
    as Hlen_front.
  pose proof (f_equal length
                (renderList_keys target more _ back Hback)) as Hlen_back.
  rewrite length_map, length_seq in Hlen_front, Hlen_back.
  split.
  - rewrite <- Hlen_front, take_app_length. reflexivity.
  - rewrite length_app. lia.
Qed.

End DispatcherRendering.

Section DispatcherRenderingExamples.

Import WidgetLayout Fixtures.

Local Open Scope list_scope.

(** The three nodes of the tidy layout are keyed 0, 1, 2. *)
Lemma render_keys_witness :
  exists vnodes,
    WidgetLayout.render passesRow passesSection tidy_layout = Return vnodes /\
    map key vnodes = [0; 1; 2].
Proof.
  eexists. split; [reflexivity |].
  apply (render_keys passesRow passesSection tidy_layout). reflexivity.
Defined.

(** The tidy layout seen as one row followed by two more. *)
Lemma render_append_stable_witness :
  WidgetLayout.render passesRow passesSection
    {| layout := [a_row]; layout_target := "PropertiesPanel" |} =
  Return [ {| key := 0; is_ := WidgetRow; widgetData := a_row;
              layoutTarget := "PropertiesPanel" |} ].
Proof.
  apply (render_append_stable passesRow passesSection "PropertiesPanel"
           [a_row] [a_section; a_row] _ eq_refl).
Defined.

End DispatcherRenderingExamples.

(** * The template of the base field wrapper *)

Section FieldInputTemplate.

Import FieldInput.

Local Open Scope list_scope.

Lemma truthy_nonempty (label : option string) :
  truthy label = true <-> exists text, label = Some text /\ text <> "".
Proof.
  destruct label as [[| c text] |]; simpl; split;
    try discriminate; try reflexivity.
  - intros (text & Heq & Hne). inversion Heq; subst text. now destruct Hne.
  - intros _. eexists. split; [reflexivity | discriminate].
  - intros (text & Heq & _). discriminate Heq.
Qed.

(** X4.  The [<label>] is rendered exactly when the [label] prop is a
    non-empty string: then the children are the input carrying
    [has-label], the label with the prop's text, and the slot, and the
    label's [for] is the input's [id].  Without the prop, or with the empty
    string, there is no label and the input carries no class. *)
Theorem render_label (this : Instance) :
  (forall text, label (props this) = Some text -> text <> "" ->
     children (render this) =
       [ input_el ["has-label"] (element_id this) "text"
           (value (props this)) (spellcheck (props this))
           (disabled (props this));
         label_el (element_id this) text;
         slot_outlet ]) /\
  (label (props this) = None \/ label (props this) = Some "" ->
     children (render this) =
       [ input_el [] (element_id this) "text"
           (value (props this)) (spellcheck (props this))
           (disabled (props this));
         slot_outlet ]) /\
  (forall for_ text, label_el for_ text ∈ children (render this) ->
     label (props this) = Some text /\ text <> "" /\
     for_ = element_id this).
Proof.
  unfold render. simpl. split; [| split].
  - intros text Hlabel Hne. rewrite Hlabel.
    destruct text as [| c text]; [now destruct Hne | reflexivity].
  - intros [Hlabel | Hlabel]; rewrite Hlabel; reflexivity.
  - intros for_ text Hin.
    destruct (label (props this)) as [[| c shown] |]; simpl in Hin;
      repeat (apply elem_of_cons in Hin as [Heq | Hin]);
      try discriminate Heq; try (inversion Hin; fail).
    inversion Heq; subst. repeat split. discriminate.
Qed.

Lemma substring_from_prefix (digits : string) :
  data ("0." ++ digits)%string = digits.
Proof. reflexivity. Qed.

(** X5.  For a random draw printed as [0.] followed by its digits, the
    element id (the input's [id], the label's [for]) is [field-input-]
    followed by the digits, and two instances have the same element id
    only if they drew the same digits. *)
Theorem element_id_of_draw (p q : Props) (digits digits' : string) :
  element_id (create p ("0." ++ digits)%string)
    = ("field-input-" ++ digits)%string /\
  (element_id (create p ("0." ++ digits)%string)
     = element_id (create q ("0." ++ digits')%string) <->
   digits = digits').
Proof.
  unfold element_id, create. simpl id. rewrite !substring_from_prefix.
  split; [reflexivity |]. split.
  - intros Heq. simpl in Heq. now inversion Heq.
  - intros ->. reflexivity.
Qed.

End FieldInputTemplate.

(** * Sessions with the text input *)

Section TextInputSessions.

Import TextInput.

Local Open Scope list_scope.

(** What one interaction does, listener by listener. *)
Lemma interact_ends_edit (e : FieldInput.InputEvent) (this : Instance) :
  ends_edit e = true ->
  interact e this =
    (if is_escape e then onCancelTextChange this else onTextChanged this, []).
Proof.
  destruct e as [| | | [| | key] | v | type | | w]; try discriminate; reflexivity.
Qed.

Lemma session_cons (e : FieldInput.InputEvent)
    (es : list FieldInput.InputEvent) (this : Instance) :
  session (e :: es) this =
    (fst (session es (fst (interact e (arrived e this)))),
     snd (interact e (arrived e this))
       ++ snd (session es (fst (interact e (arrived e this))))).
Proof.
  simpl. destruct (interact e (arrived e this)) as [this1 out1]. simpl.
  now destruct (session es this1).
Qed.

Lemma session_props (es : list FieldInput.InputEvent) :
  forall this : Instance, props (fst (session es this)) = props this.
Proof.
  induction es as [| e es IH]; intros this; [reflexivity |].
  rewrite session_cons. simpl fst.
  rewrite IH, interact_keeps_props. reflexivity.
Qed.

(** X6.  What the template of the text input renders depends on its props
    alone: no sequence of interactions changes the rendered tree, whatever
    the edit state; in that tree the input is bound to the [value] prop,
    with spell checking on and [disabled] as given.  (This is the tree the
    template describes; the text the element itself holds follows what is
    typed.) *)
Theorem render_unchanged_by_session (child_id : string)
    (es : list FieldInput.InputEvent) (this : Instance) :
  render child_id (fst (session es this)) = render child_id this /\
  exists class rest,
    FieldInput.children (snd (render child_id this)) =
      FieldInput.input_el class ("field-input-" ++ child_id)%string "text"
        (value (props this)) true (disabled (props this)) :: rest.
Proof.
  split.
  - unfold render, fieldInput, text_get. now rewrite session_props.
  - unfold render. simpl. eexists _, _. reflexivity.
Qed.

Lemma arrived_composing (e : FieldInput.InputEvent) (this : Instance) :
  composing (inputElement (arrived e this)) = composing (inputElement this).
Proof. destruct e as [| | | [| | key] | v | type | | w]; reflexivity. Qed.

Lemma onTextChanged_composing (this : Instance) :
  composing (inputElement (onTextChanged this))
    = composing (inputElement this).
Proof. unfold onTextChanged. now destruct (editing this). Qed.

Lemma onTextFocused_composing (this : Instance) :
  composing (inputElement (onTextFocused this))
    = composing (inputElement this).
Proof.
  change (inputElement (onTextFocused this))
    with (el_select (el_set_value (text_get this) (inputElement this))).
  now rewrite select_after_set_value.
Qed.

(** One interaction: what goes out, and the flag it leaves. *)
Lemma interact_emits (e : FieldInput.InputEvent) (this : Instance) :
  snd (interact e this)
    = map update_value (typed [e] (composing (inputElement this))) /\
  composing (inputElement (fst (interact e this)))
    = composing_after e (composing (inputElement this)).
Proof.
  unfold interact.
  destruct e as [| | | [| | key] | v | type | | w]; simpl;
    try (split; reflexivity);
    try (split; [reflexivity | apply onTextChanged_composing]);
    try (split; [reflexivity | apply onTextFocused_composing]);
    destruct (composing (inputElement this)) eqn:Hflag; simpl;
    split; try reflexivity; exact Hflag.
Qed.

Lemma typed_cons (e : FieldInput.InputEvent)
    (es : list FieldInput.InputEvent) (c : bool) :
  typed (e :: es) c = typed [e] c ++ typed es (composing_after e c).
Proof.
  destruct e as [| | | [| | key] | v | type | | w], c; reflexivity.
Qed.

Lemma typed_plain (es : list FieldInput.InputEvent) :
  Forall (fun e => e <> FieldInput.compositionstart) es ->
  typed es false = texts es.
Proof.
  induction es as [| e es IH]; intros Hplain; [reflexivity |].
  apply Forall_cons in Hplain as [He Hes]. specialize (IH Hes).
  destruct e as [| | | [| | key] | v | type | | w]; simpl;
    try exact IH; [now rewrite IH | now destruct He].
Qed.

(** X7.  The parent hears exactly what [v-model] passes on: over any
    sequence of interactions the emitted events are one [update:value] for
    every [input] event outside a composition and one for the end of every
    composition, each carrying the text of its event, in order; [input]
    events during a composition, focus, commit and cancel emit nothing.
    Without compositions that is one event per [input] event. *)
Theorem session_emits (es : list FieldInput.InputEvent) (this : Instance) :
  snd (session es this)
    = map update_value (typed es (composing (inputElement this))) /\
  (composing (inputElement this) = false ->
   Forall (fun e => e <> FieldInput.compositionstart) es ->
   snd (session es this) = map update_value (texts es)).
Proof.
  assert (Hall : forall this : Instance,
            snd (session es this)
              = map update_value (typed es (composing (inputElement this)))).
  { clear this. induction es as [| e es IH]; intros this; [reflexivity |].
    rewrite session_cons. simpl snd. rewrite IH.
    destruct (interact_emits e (arrived e this)) as [Hout Hflag].
    rewrite Hout, Hflag, arrived_composing, (typed_cons e es).
    now rewrite map_app. }
  split; [apply Hall |].
  intros Hflag Hplain. rewrite Hall, Hflag. now rewrite typed_plain.
Qed.

Lemma interact_editing (e : FieldInput.InputEvent) (this : Instance) :
  editing (fst (interact e this)) =
  if is_focus e then true
  else if ends_edit e then false
  else editing this.
Proof.
  unfold interact.
  destruct e as [| | | [| | key] | v | type | | w]; simpl; try reflexivity;
    try apply onTextChanged_editing;
    destruct (composing (inputElement this)); reflexivity.
Qed.

Lemma arrived_editing (e : FieldInput.InputEvent) (this : Instance) :
  editing (arrived e this) = editing this.
Proof. reflexivity. Qed.

Lemma session_editing_from (es : list FieldInput.InputEvent) :
  forall this : Instance,
    editing (fst (session es this)) = true <->
    (editing this = true /\ Forall (fun e => ends_edit e = false) es) \/
    (exists before after,
       es = before ++ FieldInput.focus :: after /\
       Forall (fun e => ends_edit e = false) after).
Proof.
  induction es as [| e es IH]; intros this.
  - simpl. split.
    + intros Hediting. left. split; [exact Hediting | constructor].
    + intros [[Hediting _] | (before & after & Heq & _)]; [exact Hediting |].
      destruct before; discriminate Heq.
  - rewrite session_cons. simpl fst.
    rewrite IH, interact_editing, arrived_editing. split.
    + intros [[Hstep Hrest] | (before & after & Heq & Hafter)].
      * destruct (is_focus e) eqn:Hfocus.
        -- right. exists [], es. split; [| exact Hrest].
           destruct e; try discriminate Hfocus. reflexivity.
        -- destruct (ends_edit e) eqn:Hends; [discriminate Hstep |].
           left. split; [exact Hstep | now constructor].
      * right. exists (e :: before), after. split; [| exact Hafter].
        simpl. now rewrite Heq.
    + intros [[Hediting Hall] | (before & after & Heq & Hafter)].
      * apply Forall_cons in Hall as [He Hrest]. left. split; [| exact Hrest].
        rewrite He. now destruct (is_focus e).
      * destruct before as [| b before]; simpl in Heq; inversion Heq; subst.
        -- left. split; [reflexivity | exact Hafter].
        -- right. exists before, after. split; [reflexivity | exact Hafter].
Qed.

(** X8.  At the level of the text box: after any sequence of interactions
    from creation, [editing] is true exactly when the box was focused and
    no blur, change, Enter or Escape came after the last focus. *)
Theorem session_editing (p : Props) (el : HTMLInputElement)
    (es : list FieldInput.InputEvent) :
  editing (fst (session es (create p el))) = true <->
  exists before after,
    es = before ++ FieldInput.focus :: after /\
    Forall (fun e => ends_edit e = false) after.
Proof.
  rewrite session_editing_from. split.
  - intros [[Hcreate _] | Hfocus]; [discriminate Hcreate | exact Hfocus].
  - intros Hfocus. right. exact Hfocus.
Qed.

End TextInputSessions.

(** * What the handlers do to the element *)

Section TextInputElement.

Import TextInput.

Local Open Scope list_scope.

Lemma onCancelTextChange_text (this : Instance) :
  el_value (inputElement (onCancelTextChange this))
    = el_value (inputElement this).
Proof. reflexivity. Qed.

Lemma onTextChanged_text (this : Instance) :
  el_value (inputElement (onTextChanged this)) = el_value (inputElement this).
Proof. unfold onTextChanged. now destruct (editing this). Qed.

Lemma onTextFocused_element (this : Instance) :
  inputElement (onTextFocused this) =
  {| el_value := strip_line_breaks (text_get this);
     selectionStart := 0;
     selectionEnd := String.length (strip_line_breaks (text_get this));
     focused := focused (inputElement this);
     composing := composing (inputElement this) |}.
Proof.
  change (inputElement (onTextFocused this))
    with (el_select (el_set_value (text_get this) (inputElement this))).
  apply select_after_set_value.
Qed.

Lemma assignments_call (c : DomCall) (this : Instance) :
  assignments (call c this)
    = assignments this ++ (if is_set_value c then [c] else []).
Proof.
  unfold assignments, call. simpl calls.
  rewrite List.filter_app. simpl. now destruct (is_set_value c).
Qed.

Lemma onTextChanged_assignments (this : Instance) :
  assignments (onTextChanged this) = assignments this.
Proof.
  unfold onTextChanged. destruct (editing this); [| reflexivity].
  unfold onCancelTextChange. rewrite assignments_call. simpl.
  now rewrite app_nil_r.
Qed.

Lemma interact_assignments (e : FieldInput.InputEvent) (this : Instance) :
  assignments (fst (interact e this)) =
  assignments this
    ++ (if is_focus e then [set_value (value (props this))] else []).
Proof.
  unfold interact.
  destruct e as [| | | [| | key] | v | type | | w]; simpl;
    rewrite ?app_nil_r; try reflexivity;
    try apply onTextChanged_assignments.
  - unfold onTextFocused. rewrite !assignments_call. simpl.
    now rewrite app_nil_r.
  - unfold onCancelTextChange. rewrite assignments_call. simpl.
    now rewrite app_nil_r.
  - now destruct (composing (inputElement this)).
  - now destruct (composing (inputElement this)).
Qed.

(** X9.  The only text the handlers ever assign to the element is the
    [value] prop, and only on focus: over any sequence of interactions the
    assignments to the element's [value] in the call log are one
    assignment of the [value] prop per focus event, after those made
    before; commit and cancel assign nothing and leave the text the
    element holds as it is, so Escape does not put the old text back. *)
Theorem session_assignments (es : list FieldInput.InputEvent)
    (this : Instance) :
  assignments (fst (session es this)) =
    assignments this
      ++ replicate (length (List.filter is_focus es))
           (set_value (value (props this))) /\
  (forall e, ends_edit e = true ->
     el_value (inputElement (fst (interact e this)))
       = el_value (inputElement this)).
Proof.
  split.
  - revert this. induction es as [| e es IH]; intros this.
    + simpl. now rewrite app_nil_r.
    + rewrite session_cons. simpl fst.
      rewrite IH, interact_keeps_props, interact_assignments.
      change (props (arrived e this)) with (props this).
      change (assignments (arrived e this)) with (assignments this).
      simpl List.filter. destruct (is_focus e); simpl.
      * now rewrite <- app_assoc.
      * now rewrite app_nil_r.
  - intros e Hends. rewrite (interact_ends_edit e this Hends). simpl fst.
    destruct (is_escape e); [reflexivity | apply onTextChanged_text].
Qed.

Lemma blur_calls_call (c : DomCall) (this : Instance) :
  blur_calls (call c this) = blur_calls this + Nat.b2n (is_blur c).
Proof.
  unfold blur_calls, call. simpl calls.
  rewrite List.filter_app, length_app. simpl.
  destruct (is_blur c); reflexivity.
Qed.

Lemma interact_blur_calls (e : FieldInput.InputEvent) (this : Instance) :
  blur_calls (fst (interact e this)) + Nat.b2n (editing (fst (interact e this)))
  <= blur_calls this + Nat.b2n (editing this)
     + Nat.b2n (is_focus e) + Nat.b2n (is_escape e).
Proof.
  assert (Hcancel : blur_calls (onCancelTextChange this) = blur_calls this + 1)
    by (unfold onCancelTextChange; now rewrite blur_calls_call).
  assert (Hfocus : blur_calls (onTextFocused this) = blur_calls this).
  { unfold onTextFocused. rewrite !blur_calls_call. simpl.
    unfold blur_calls. simpl. lia. }
  assert (Hcommit :
    blur_calls (onTextChanged this) + Nat.b2n (editing (onTextChanged this))
    <= blur_calls this + Nat.b2n (editing this)).
  { unfold onTextChanged. destruct (editing this) eqn:Hediting.
    - rewrite Hcancel. simpl. lia.
    - rewrite Hediting. lia. }
  unfold interact.
  destruct e as [| | | [| | key] | v | type | | w]; simpl;
    try lia;
    try (rewrite Hfocus; lia);
    try (rewrite Hcancel; lia).
  - destruct (composing (inputElement this)); simpl; lia.
  - change (blur_calls (set_composing true this)) with (blur_calls this). lia.
  - destruct (composing (inputElement this)); simpl;
      change (blur_calls (set_composing false this)) with (blur_calls this);
      lia.
Qed.

Lemma session_blur_calls (es : list FieldInput.InputEvent) :
  forall this : Instance,
    blur_calls (fst (session es this))
      + Nat.b2n (editing (fst (session es this)))
    <= blur_calls this + Nat.b2n (editing this)
       + length (List.filter is_focus es)
       + length (List.filter is_escape es).
Proof.
  induction es as [| e es IH]; intros this; [simpl; lia |].
  rewrite session_cons. simpl fst.
  pose proof (IH (fst (interact e (arrived e this)))) as Hrest.
  pose proof (interact_blur_calls e (arrived e this)) as Hstep.
  change (blur_calls (arrived e this)) with (blur_calls this) in Hstep.
  change (editing (arrived e this)) with (editing this) in Hstep.
  simpl List.filter.
  destruct (is_focus e), (is_escape e); simpl length; simpl in Hstep; lia.
Qed.

(** X10.  [blur()] is called at most once per edit: over any sequence of
    interactions from creation, the number of [blur()] calls is at most
    the number of focus events plus the number of Escape presses, however
    many blur, change and Enter events there are. *)
Theorem blur_calls_bounded (p : Props) (el : HTMLInputElement)
    (es : list FieldInput.InputEvent) :
  blur_calls (fst (session es (create p el)))
  <= length (List.filter is_focus es) + length (List.filter is_escape es).
Proof.
  pose proof (session_blur_calls es (create p el)) as Hbound.
  unfold blur_calls at 2 in Hbound. simpl in Hbound. lia.
Qed.

(** X11.  While editing, commit and cancel are the same operation: blur,
    change, Enter and Escape each clear [editing] and blur the element in
    the same way, emit nothing, and leave the element's text and the props
    as they are, so Escape does not put the old text back. *)
Theorem commit_is_cancel (e : FieldInput.InputEvent) (this : Instance) :
  editing this = true ->
  ends_edit e = true ->
  interact e this = (onCancelTextChange this, []) /\
  el_value (inputElement (fst (interact e this)))
    = el_value (inputElement this) /\
  props (fst (interact e this)) = props this.
Proof.
  intros Hediting Hends. rewrite (interact_ends_edit e this Hends).
  unfold onTextChanged. rewrite Hediting.
  destruct (is_escape e); repeat split.
Qed.

(** X12.  A second focus event changes nothing in the element or the edit
    state: focusing an instance that was just focused leaves [editing],
    the element and the props as the first focus left them. *)
Theorem focus_twice (this : Instance) :
  editing (onTextFocused (onTextFocused this))
    = editing (onTextFocused this) /\
  inputElement (onTextFocused (onTextFocused this))
    = inputElement (onTextFocused this) /\
  props (onTextFocused (onTextFocused this)) = props (onTextFocused this).
Proof.
  split; [reflexivity |]. split; [| reflexivity].
  rewrite (onTextFocused_element (onTextFocused this)).
  rewrite (onTextFocused_element this). reflexivity.
Qed.

(** X13.  The handlers read no prop but [value]: with the same [value],
    an interaction does the same to the edit state and the element and
    emits the same events whatever [label] and [disabled] are; in
    particular the component itself does not hold back the events of a
    disabled field. *)
Theorem handlers_read_value_only (p q : Props)
    (e : FieldInput.InputEvent) (this : Instance) :
  value p = value q ->
  interact e (set_props q this) =
    (set_props q (fst (interact e (set_props p this))),
     snd (interact e (set_props p this))).
Proof.
  intros Hvalue.
  destruct e as [| | | [| | key] | v | type | | w]; simpl; try reflexivity.
  - unfold onTextFocused, set_props, set_editing, call, text_get. simpl.
    rewrite Hvalue. reflexivity.
  - unfold interact. simpl. unfold onTextChanged. simpl.
    destruct (editing this); reflexivity.
  - unfold interact. simpl. unfold onTextChanged. simpl.
    destruct (editing this); reflexivity.
  - unfold interact. simpl. unfold onTextChanged. simpl.
    destruct (editing this); reflexivity.
  - unfold interact. simpl.
    destruct (composing (inputElement this)); reflexivity.
  - unfold interact. simpl.
    destruct (composing (inputElement this)); reflexivity.
Qed.

End TextInputElement.

(** ** Sessions on concrete instances *)

Section TextInputSessionExamples.

Import TextInput Fixtures.

Local Open Scope list_scope.

(** The element ends with the text typed, not with the prop's text. *)
Example typing_session_runs :
  session typing_session idle =
  ({| props := name_props; editing := false;
      inputElement := {| el_value := "Layer 1ab"; selectionStart := 9;
                         selectionEnd := 9; focused := false;
                         composing := false |};
      calls := [set_value "Layer 1"; select; blur] |},
   [update_value "Layer 1a"; update_value "Layer 1ab"]).
Proof. reflexivity. Qed.

(** Typing through an input method: nothing goes out before the
    composition ends. *)
Example composing_session_runs :
  snd (session composing_session idle) = [update_value "Layer 1 ni"] /\
  el_value (inputElement (fst (session composing_session idle)))
    = "Layer 1 ni".
Proof. split; reflexivity. Qed.

(** Focus, type, Escape: the typed text stays in the element. *)
Example escape_keeps_typed_text :
  el_value
    (inputElement
       (fst (session [FieldInput.focus; FieldInput.input "Layer 1a";
                      FieldInput.keydown FieldInput.KeyEsc] idle)))
    = "Layer 1a".
Proof. reflexivity. Qed.

(** A label prop holding the empty string shows no label. *)
Lemma render_label_witness :
  FieldInput.children
    (FieldInput.render
       (FieldInput.create
          {| FieldInput.value := "12"; FieldInput.label := Some "";
             FieldInput.spellcheck := false; FieldInput.disabled := false |}
          "0.5")) =
  [ FieldInput.input_el [] "field-input-5" "text" "12" false false;
    FieldInput.slot_outlet ].
Proof.
  apply (render_label
           (FieldInput.create
              {| FieldInput.value := "12"; FieldInput.label := Some "";
                 FieldInput.spellcheck := false;
                 FieldInput.disabled := false |} "0.5")).
  right. reflexivity.
Defined.

(** Enter while editing does what Escape does. *)
Lemma commit_is_cancel_witness :
  editing busy = true /\
  interact (FieldInput.keydown FieldInput.KeyEnter) busy
    = interact (FieldInput.keydown FieldInput.KeyEsc) busy.
Proof.
  split; [reflexivity |].
  destruct (commit_is_cancel (FieldInput.keydown FieldInput.KeyEnter) busy
              eq_refl eq_refl) as [Henter _].
  destruct (commit_is_cancel (FieldInput.keydown FieldInput.KeyEsc) busy
              eq_refl eq_refl) as [Hescape _].
  now rewrite Henter, Hescape.
Defined.

(** Focus on the disabled variant of the same field. *)
Lemma handlers_read_value_only_witness :
  fst (interact FieldInput.focus (set_props locked_props idle)) =
  set_props locked_props (onTextFocused idle).
Proof.
  rewrite (handlers_read_value_only name_props locked_props
             FieldInput.focus idle eq_refl).
  reflexivity.
Defined.

End TextInputSessionExamples.
